(** * XDLCompiler / xcom: verification of [xcom/base.h]

    A shallow embedding of the support layer declared in [xcom/base.h]
    (interface identity, the unwrap protocol, the register-return adapter
    and the stub / todo diagnostics), followed by the properties the
    specification states about it.

    Conventions of the embedding:
    - addresses and pointer-sized cells are [Z]; [nullptr] is [0];
    - an [HRESULT] is the signed 32-bit value as a [Z];
    - the process is a [World]: a memory of pointer cells and the
      chronological trace of the calls made into the platform;
    - a C++ function with effects is a [proc A]: it takes the world and
      either returns a value with the new world or ends the process. *)

From Stdlib Require Import ZArith List String Ascii Bool Lia.
From stdpp Require Import base decidable option gmap strings.
From coqutil Require Import Byte Word.LittleEndianList.
Import ListNotations.

Local Open Scope Z_scope.

(** ** Platform vocabulary ([objbase.h], [winerror.h], [winuser.h]) *)

Definition addr := Z.
Definition nullptr : addr := 0.

Definition HRESULT := Z.
Definition S_OK : HRESULT := 0.
Definition S_FALSE : HRESULT := 1.
Definition E_NOINTERFACE : HRESULT := 0x80004002 - 2 ^ 32.
Definition E_POINTER : HRESULT := 0x80004003 - 2 ^ 32.

(** [#define SUCCEEDED(hr) (((HRESULT)(hr)) >= 0)] and its complement. *)
Definition SUCCEEDED (hr : HRESULT) : bool := 0 <=? hr.
Definition FAILED (hr : HRESULT) : bool := hr <? 0.

Definition MB_ICONERROR : Z := 0x10.

(** The one-character string ["\n"]. *)
Definition LF : string := String "010"%char EmptyString.

(** [GUID]: a 32-bit group, two 16-bit groups and eight bytes. *)
Record GUID := mkGUID {
  Data1 : Z;
  Data2 : Z;
  Data3 : Z;
  Data4 : list Z
}.

#[global] Instance GUID_eq_dec : EqDecision GUID.
Proof. solve_decision. Defined.

(** ** [struct abi_t] *)

Record abi_t := mk_abi_t {
  Major : Z;
  Minor : Z;
  Build : Z;
  Revision : Z
}.

(** [abi_t{}]: every member takes its default member initializer [= 0]. *)
Definition abi_t_default : abi_t :=
  {| Major := 0; Minor := 0; Build := 0; Revision := 0 |}.

#[global] Instance abi_t_eq_dec : EqDecision abi_t.
Proof. solve_decision. Defined.

(** The defaulted [operator==]: member-wise. *)
Definition abi_t_eqb (a b : abi_t) : bool :=
  (Major a =? Major b) && (Minor a =? Minor b)
  && (Build a =? Build b) && (Revision a =? Revision b).

(** The defaulted [operator<=>]: members compared in declaration order. *)
Definition abi_t_compare (a b : abi_t) : comparison :=
  match Major a ?= Major b with
  | Eq => match Minor a ?= Minor b with
          | Eq => match Build a ?= Build b with
                  | Eq => Revision a ?= Revision b
                  | c => c
                  end
          | c => c
          end
  | c => c
  end.

(** [GUID_UnwrapInterface] = {7E93844E-159A-4D07-9910-87E9D65ECE00} *)
Definition GUID_UnwrapInterface : GUID :=
  {| Data1 := 0x7E93844E; Data2 := 0x159A; Data3 := 0x4D07;
     Data4 := [0x99; 0x10; 0x87; 0xE9; 0xD6; 0x5E; 0xCE; 0x00] |}.

(** ** The process: memory, platform calls, termination *)

Inductive event :=
| EvMessageBoxA (hWnd : addr) (lpText lpCaption : string) (uType : Z)
| EvDebugBreak
| EvExitProcess (uExitCode : Z)
| EvOutputDebugStringA (lpOutputString : string)
| EvQueryInterface (this : addr) (riid : GUID) (ppvObject : addr)
| EvReportFailure (hr : HRESULT).

Record World := mkWorld {
  mem : gmap Z Z;
  trace : list event
}.

Inductive outcome (A : Type) :=
| Returned (a : A) (w : World)
| Exited (uExitCode : Z) (w : World).
Arguments Returned {A} a w.
Arguments Exited {A} uExitCode w.

Definition proc (A : Type) : Type := World -> outcome A.

#[global] Instance proc_ret : MRet proc :=
  fun A a w => Returned a w.

#[global] Instance proc_bind : MBind proc :=
  fun A B k m w =>
    match m w with
    | Returned a w' => k a w'
    | Exited c w' => Exited c w'
    end.

Definition emit (e : event) : proc unit :=
  fun w => Returned tt {| mem := mem w; trace := trace w ++ [e] |}.

(** [*p = v] for a pointer-sized cell. *)
Definition store (p : addr) (v : Z) : proc unit :=
  fun w => Returned tt {| mem := <[p := v]> (mem w); trace := trace w |}.

Definition MessageBoxA (hWnd : addr) (lpText lpCaption : string) (uType : Z)
  : proc unit :=
  emit (EvMessageBoxA hWnd lpText lpCaption uType).

Definition DebugBreak : proc unit := emit EvDebugBreak.

Definition OutputDebugStringA (s : string) : proc unit :=
  emit (EvOutputDebugStringA s).

(** [ExitProcess] does not return: the process ends with the given code. *)
Definition ExitProcess (uExitCode : Z) : proc unit :=
  fun w => Exited uExitCode
             {| mem := mem w; trace := trace w ++ [EvExitProcess uExitCode] |}.

(** WIL's [RETURN_HR(hr)]: reports [hr] to the failure log when it is a
    failure and hands it back as the function's return value. *)
Definition RETURN_HR (hr : HRESULT) : proc HRESULT :=
  (if FAILED hr then emit (EvReportFailure hr) else mret tt);;
  mret hr.

(** [struct IUnknownVtbl]: each entry receives the object ([this]) first.
    An entry is arbitrary code of the object's implementer. *)
Record IUnknownVtbl := mkIUnknownVtbl {
  QueryInterface : addr -> GUID -> addr -> proc HRESULT;
  AddRef : addr -> proc Z;
  Release : addr -> proc Z
}.

(** A live COM object: where it is and its table of methods.  An
    [IUnknown *] argument annotated [_In_opt_] is an [option IUnknown]. *)
Record IUnknown := mkIUnknown {
  this_ptr : addr;
  lpVtbl : IUnknownVtbl
}.

(** [pUnknown->QueryInterface(riid, ppvObject)] *)
Definition call_QueryInterface (pUnknown : IUnknown) (riid : GUID)
    (ppvObject : addr) : proc HRESULT :=
  emit (EvQueryInterface (this_ptr pUnknown) riid ppvObject);;
  QueryInterface (lpVtbl pUnknown) (this_ptr pUnknown) riid ppvObject.

(** ** [reg_return_t] and [to_reg_return] *)

(** The MSVC targets the header is written for; all are little-endian. *)
Inductive arch := X86 | X64.

Inductive int_rank := RChar | RShort | RInt | RLong | RLongLong.

(** The types a value handed to [to_reg_return] can have: complete object
    types, each with what the adapter asks of it (whether it is a class
    or a union, its size, which type it is).  [TScalar] stands for the
    scalar types not listed by name ([wchar_t], [std::nullptr_t],
    pointers to members, ...). *)
Inductive cpp_type :=
| TBool
| TInteger (rank : int_rank) (is_unsigned : bool)
| TFloat
| TDouble
| TPointer (pointee : string)
| TEnum (name : string) (underlying : int_rank) (is_unsigned : bool)
| TScalar (name : string) (size : nat)
| TClass (name : string) (size : nat)
| TUnion (name : string) (size : nat).

#[global] Instance int_rank_eq_dec : EqDecision int_rank.
Proof. solve_decision. Defined.

#[global] Instance cpp_type_eq_dec : EqDecision cpp_type.
Proof. solve_decision. Defined.

Definition is_same_v (T U : cpp_type) : bool :=
  if cpp_type_eq_dec T U then true else false.

Definition is_class_v (T : cpp_type) : bool :=
  match T with TClass _ _ => true | _ => false end.

Definition is_union_v (T : cpp_type) : bool :=
  match T with TUnion _ _ => true | _ => false end.

Definition sizeof_rank (r : int_rank) : nat :=
  match r with
  | RChar => 1 | RShort => 2 | RInt => 4 | RLong => 4 | RLongLong => 8
  end%nat.

Definition sizeof_pointer (a : arch) : nat :=
  match a with X86 => 4 | X64 => 8 end%nat.

Definition sizeof (a : arch) (T : cpp_type) : nat :=
  match T with
  | TBool => 1
  | TInteger r _ => sizeof_rank r
  | TFloat => 4
  | TDouble => 8
  | TPointer _ => sizeof_pointer a
  | TEnum _ r _ => sizeof_rank r
  | TScalar _ n => n
  | TClass _ n => n
  | TUnion _ n => n
  end%nat.

(** [std::uintptr_t]: [unsigned int] on 32-bit targets, [unsigned __int64]
    on 64-bit ones. *)
Definition uintptr_t (a : arch) : cpp_type :=
  match a with
  | X86 => TInteger RInt true
  | X64 => TInteger RLongLong true
  end.

Definition reg_return_t (a : arch) (T : cpp_type) : cpp_type :=
  if (is_class_v T || is_union_v T)
     && (sizeof a T <=? sizeof a (uintptr_t a))%nat
  then uintptr_t a
  else T.

(** A value is its object representation, lowest address first. *)
Definition object_repr := list byte.

(** [T reg = {};] for the types [reg_return_t] produces. *)
Definition zero_init (a : arch) (T : cpp_type) : object_repr :=
  repeat Byte.x00 (sizeof a T).

(** [memcpy(&dst, &src, n)]: the first [n] bytes of [dst] are replaced. *)
Definition memcpy (dst src : object_repr) (n : nat) : object_repr :=
  firstn n src ++ skipn n dst.

Definition to_reg_return (a : arch) (T : cpp_type) (value : object_repr)
  : object_repr :=
  if is_same_v T (reg_return_t a T) then value
  else
    let reg := zero_init a (reg_return_t a T) in
    memcpy reg value (sizeof a T).

(** The number an unsigned integer object holds on these targets. *)
Definition unsigned_value (r : object_repr) : Z := le_combine r.

(** Byte [i] of a number, counted from the least significant one. *)
Definition byte_of (z : Z) (i : nat) : Z :=
  Z.land (Z.shiftr z (8 * Z.of_nat i)) 0xFF.

(** ** Interface types and the identifier table *)

(** The types [guid_of] is asked about: an interface, or an interface
    template instantiated at one [abi_t] value. *)
Inductive interface_type :=
| Interface (name : string)
| Instance_of (template : string) (abi : abi_t).

#[global] Instance interface_type_eq_dec : EqDecision interface_type.
Proof. solve_decision. Defined.

Definition interface_type_code (T : interface_type)
  : string + string * (Z * Z * Z * Z) :=
  match T with
  | Interface n => inl n
  | Instance_of t v => inr (t, (Major v, Minor v, Build v, Revision v))
  end.

Definition interface_type_decode (c : string + string * (Z * Z * Z * Z))
  : interface_type :=
  match c with
  | inl n => Interface n
  | inr (t, (ma, mi, bu, re)) => Instance_of t (mk_abi_t ma mi bu re)
  end.

#[global] Instance interface_type_countable : Countable interface_type.
Proof.
  apply (inj_countable' interface_type_code interface_type_decode).
  intros [n | t [ma mi bu re]]; reflexivity.
Defined.

(** What a translation unit fixes at build time: the identifiers attached
    with [__declspec(uuid(...))], which [__uuidof] reads, and the explicit
    specializations of [guid_v] written with the [DECLARE_*] macros. *)
Record translation_unit := mk_translation_unit {
  uuidof : interface_type -> option GUID;
  guid_v_specializations : gmap interface_type GUID
}.

(** The build and run-time facts the diagnostics depend on. *)
Record type_info := mk_type_info { type_info_name : string }.

Record build := mk_build {
  _CPPRTTI : bool;
  _DEBUG : bool;
  __RTtypeid : addr -> type_info
}.

Module xcom.

Module impl.

(** [guid_v<T>]: the explicit specialization when one was declared,
    [__uuidof(T)] otherwise; [None] when neither exists and the
    program is rejected at build time. *)
Definition guid_v (tu : translation_unit) (T : interface_type)
  : option GUID :=
  match guid_v_specializations tu !! T with
  | Some g => Some g
  | None => uuidof tu T
  end.

End impl.

(** [template<typename T> guid_of()] *)
Definition guid_of (tu : translation_unit) (T : interface_type)
  : option GUID :=
  impl.guid_v tu T.

(** [template<template<abi_t> typename T> guid_of()] *)
Definition guid_of_template (tu : translation_unit) (T : string)
  : option GUID :=
  guid_of tu (Instance_of T abi_t_default).

(** The local [type] of [StubHandler]. *)
Definition stub_type (b : build) (object : addr) : string :=
  if _CPPRTTI b then
    if object =? nullptr then "STUB"%string
    else type_info_name (__RTtypeid b object)
  else "STUB"%string.

Definition StubHandler (b : build) (name : string) (object : addr)
  : proc unit :=
  let type := stub_type b object in
  MessageBoxA nullptr name type MB_ICONERROR;;
  (if _DEBUG b then DebugBreak else mret tt);;
  ExitProcess 0.

(** The local [type] of [TodoHandler]; [None] is the null pointer. *)
Definition todo_type (b : build) (object : addr) : option string :=
  if _CPPRTTI b then
    if object =? nullptr then None
    else Some (type_info_name (__RTtypeid b object))
  else None.

Definition TodoHandler (b : build) (name : string) (object : addr)
  : proc unit :=
  let type := todo_type b object in
  OutputDebugStringA "TODO: ";;
  OutputDebugStringA name;;
  match type with
  | Some t =>
      OutputDebugStringA "(from ";;
      OutputDebugStringA t;;
      OutputDebugStringA ")"
  | None => mret tt
  end;;
  OutputDebugStringA LF.

Definition UnwrapInterface (pUnknown : option IUnknown) (ppvObject : addr)
  : proc HRESULT :=
  if ppvObject =? nullptr then RETURN_HR E_POINTER
  else
    match pUnknown with
    | None =>
        store ppvObject nullptr;;
        mret S_FALSE
    | Some obj =>
        hr ← call_QueryInterface obj GUID_UnwrapInterface ppvObject;
        if SUCCEEDED hr then mret hr
        else
          store ppvObject nullptr;;
          mret hr
    end.

End xcom.

(** ** The declaration macros *)

Definition specialize (T : interface_type) (g : GUID) (tu : translation_unit)
  : option translation_unit :=
  match guid_v_specializations tu !! T with
  | Some _ => None
  | None =>
      Some {| uuidof := uuidof tu;
              guid_v_specializations := <[T := g]> (guid_v_specializations tu) |}
  end.

(** [DECLARE_UUIDOF_HELPER(type, a, ..., k)]: an explicit specialization of
    [guid_v<type>]; a second one for the same type does not build. *)
Definition DECLARE_UUIDOF_HELPER (type : interface_type)
    (a b c d e f g h i j k : Z) (tu : translation_unit)
  : option translation_unit :=
  specialize type (mkGUID a b c [d; e; f; g; h; i; j; k]) tu.

(** [DECLARE_ABI_UUIDOF_HELPER(type, a, ..., k)]: the same for
    [guid_v<type<abi_t{}>>]. *)
Definition DECLARE_ABI_UUIDOF_HELPER (type : string)
    (a b c d e f g h i j k : Z) (tu : translation_unit)
  : option translation_unit :=
  specialize (Instance_of type abi_t_default)
    (mkGUID a b c [d; e; f; g; h; i; j; k]) tu.

(** [IMPLEMENT_STUB()] and [IMPLEMENT_TODO()]: [this] when the enclosing
    function has one, [nullptr] otherwise. *)
Definition IMPLEMENT_STUB (b : build) (__func__ : string) (this : option addr)
  : proc unit :=
  xcom.StubHandler b __func__ (default nullptr this).


(** ** Observations on a run *)

Definition returned_value {A : Type} (o : outcome A) : option A :=
  match o with
  | Returned a _ => Some a
  | Exited _ _ => None
  end.

Definition final_world {A : Type} (o : outcome A) : World :=
  match o with
  | Returned _ w => w
  | Exited _ w => w
  end.

Definition is_negotiation (e : event) : bool :=
  match e with
  | EvQueryInterface _ _ _ => true
  | _ => false
  end.

(** The negotiation calls a trace contains, in order. *)
Definition negotiations (t : list event) : list event :=
  List.filter is_negotiation t.

(** What [OutputDebugStringA] received, call by call, and as one text. *)
Fixpoint debug_chunks (t : list event) : list string :=
  match t with
  | [] => []
  | EvOutputDebugStringA s :: t' => s :: debug_chunks t'
  | _ :: t' => debug_chunks t'
  end.

Definition debug_text (t : list event) : string :=
  String.concat "" (debug_chunks t).

(** The trace line the specification asks of the incomplete marker for a
    method name and the type name resolved, if any. *)
Definition todo_line (name : string) (type : option string) : string :=
  match type with
  | Some t => ("TODO: " ++ name ++ "(from " ++ t ++ ")" ++ LF)%string
  | None => ("TODO: " ++ name ++ LF)%string
  end.

(** The contract of the negotiation call which the unwrap protocol relies
    on for its success path: a call that succeeds leaves in the output
    cell a reference that is valid and owned by the caller.  What "valid
    and owned" means belongs to the reference-counting protocol of the
    objects, hence the parameter. *)
Definition honours_negotiation (valid_owned : World -> addr -> Prop)
    (obj : IUnknown) : Prop :=
  forall riid ppvObject w hr w',
    ppvObject <> nullptr ->
    call_QueryInterface obj riid ppvObject w = Returned hr w' ->
    SUCCEEDED hr = true ->
    exists p, mem w' !! ppvObject = Some p /\ valid_owned w' p.

(** ** Test doubles *)

Module Fake.

(** The reference count kept in the object's first cell. *)
Definition count (this : addr) (w : World) : Z :=
  Z.max 0 (default 0 (mem w !! this)).

(** An object that answers the unwrap identifier with itself, taking a
    reference and reporting [status], and refuses everything else. *)
Definition query (status : HRESULT) (this : addr) (riid : GUID)
    (ppvObject : addr) : proc HRESULT :=
  fun w =>
    if decide (riid = GUID_UnwrapInterface) then
      Returned status
        {| mem := <[ppvObject := this]>
                    (<[this := count this w + 1]> (mem w));
           trace := trace w |}
    else
      Returned E_NOINTERFACE
        {| mem := <[ppvObject := nullptr]> (mem w); trace := trace w |}.

(** An object that supports nothing and leaves the output cell as it
    found it. *)
Definition refuse (this : addr) (riid : GUID) (ppvObject : addr)
  : proc HRESULT :=
  fun w => Returned E_NOINTERFACE w.

Definition add_ref (this : addr) : proc Z :=
  fun w =>
    Returned (count this w + 1)
      {| mem := <[this := count this w + 1]> (mem w); trace := trace w |}.

Definition release (this : addr) : proc Z :=
  fun w =>
    Returned (count this w - 1)
      {| mem := <[this := count this w - 1]> (mem w); trace := trace w |}.

Definition object (status : HRESULT) : IUnknown :=
  {| this_ptr := 4096;
     lpVtbl := {| QueryInterface := query status;
                  AddRef := add_ref; Release := release |} |}.

Definition stranger : IUnknown :=
  {| this_ptr := 8192;
     lpVtbl := {| QueryInterface := refuse;
                  AddRef := add_ref; Release := release |} |}.

(** A reference is live when the count of its object is positive. *)
Definition live (w : World) (p : addr) : Prop :=
  exists n, mem w !! p = Some n /\ 0 < n.

(** A process in which one output cell, at 64, holds garbage. *)
Definition start : World :=
  {| mem := {[ 64 := 0xCCCCCCCC ]}; trace := [] |}.

(** A build with run-time type information in which the object at 4096
    is a [Bar]. *)
Definition rtti : build :=
  {| _CPPRTTI := true; _DEBUG := false;
     __RTtypeid := fun _ => {| type_info_name := "Bar" |} |}.

(** The same sources built without run-time type information. *)
Definition no_rtti : build :=
  {| _CPPRTTI := false; _DEBUG := true;
     __RTtypeid := fun _ => {| type_info_name := "Bar" |} |}.

(** A translation unit with nothing declared, and two identifiers. *)
Definition empty_unit : translation_unit :=
  {| uuidof := fun _ => None; guid_v_specializations := ∅ |}.

Definition family_id : GUID :=
  mkGUID 0x11111111 0x2222 0x3333 [1; 2; 3; 4; 5; 6; 7; 8].

Definition other_id : GUID :=
  mkGUID 0x99999999 0x8888 0x7777 [8; 7; 6; 5; 4; 3; 2; 1].

(** The unit after [DECLARE_ABI_UUIDOF_HELPER(IGraphics, ...)], and after
    a further specialization for one concrete version. *)
Definition declared : translation_unit :=
  default empty_unit
    (DECLARE_ABI_UUIDOF_HELPER "IGraphics"
       0x11111111 0x2222 0x3333 1 2 3 4 5 6 7 8 empty_unit).

Definition v10 : abi_t := mk_abi_t 10 0 19041 0.

Definition versioned : translation_unit :=
  default declared (specialize (Instance_of "IGraphics" v10) other_id declared).

(** A three-byte aggregate and a value of it. *)
Definition rgb : cpp_type := TClass "rgb" 3.
Definition rgb_value : object_repr := [Byte.x11; Byte.x22; Byte.x33].

End Fake.

(** ** Further vocabulary *)

(** The members of an [abi_t] are [uint32_t]. *)
Definition uint32_range (z : Z) : Prop := 0 <= z < 2 ^ 32.

Definition abi_t_wf (v : abi_t) : Prop :=
  uint32_range (Major v) /\ uint32_range (Minor v)
  /\ uint32_range (Build v) /\ uint32_range (Revision v).

(** The strings [TodoHandler] hands to [OutputDebugStringA], call by call,
    for the value of its local [type]. *)
Definition todo_chunks (name : string) (type : option string) : list string :=
  match type with
  | Some t => ["TODO: "; name; "(from "; t; ")"; LF]%string
  | None => ["TODO: "; name; LF]%string
  end.

(** The world after [TodoHandler]. *)
Definition after_todo (b : build) (name : string) (object : addr) (w : World)
  : World :=
  {| mem := mem w;
     trace := trace w
              ++ map EvOutputDebugStringA
                   (todo_chunks name (xcom.todo_type b object)) |}.

(** The world a call of [UnwrapInterface] hands to its own stores: the
    one the negotiation call ended in when that call is made, the initial
    one otherwise. *)
Definition after_negotiation (pUnknown : option IUnknown) (ppvObject : addr)
    (w : World) : World :=
  match pUnknown with
  | Some obj =>
      if ppvObject =? nullptr then w
      else final_world
             (call_QueryInterface obj GUID_UnwrapInterface ppvObject w)
  | None => w
  end.

Module Sample.

Definition v1_0 : abi_t := mk_abi_t 1 0 0 0.
Definition v1_2 : abi_t := mk_abi_t 1 2 0 0.
Definition v2_0 : abi_t := mk_abi_t 2 0 0 0.

(** An object whose negotiation ends the process. *)
Definition fatal_query (this : addr) (riid : GUID) (ppvObject : addr)
  : proc HRESULT :=
  fun w => Exited 3 w.

Definition fatal : IUnknown :=
  {| this_ptr := 12288;
     lpVtbl := {| QueryInterface := fatal_query;
                  AddRef := Fake.add_ref; Release := Fake.release |} |}.

(** A continuation that would write a cell and log a line. *)
Definition afterwards : proc HRESULT :=
  store 128 1;;
  OutputDebugStringA "after";;
  mret S_OK.

(** An object that supports nothing and nulls the output cell, as the
    rules for [QueryInterface] ask. *)
Definition polite_query (this : addr) (riid : GUID) (ppvObject : addr)
  : proc HRESULT :=
  store ppvObject nullptr;;
  mret E_NOINTERFACE.

Definition polite : IUnknown :=
  {| this_ptr := 16384;
     lpVtbl := {| QueryInterface := polite_query;
                  AddRef := Fake.add_ref; Release := Fake.release |} |}.

Definition pair16 : cpp_type := TUnion "pair16" 4.
Definition pair16_a : object_repr := [Byte.x01; Byte.x02; Byte.x03; Byte.x04].
Definition pair16_b : object_repr := [Byte.x01; Byte.x02; Byte.x03; Byte.x05].

End Sample.

(** * Properties *)

(** ** Basic facts about status codes and runs *)

Lemma FAILED_not_SUCCEEDED (hr : HRESULT) : FAILED hr = negb (SUCCEEDED hr).
Proof. unfold FAILED, SUCCEEDED. destruct (Z.leb_spec 0 hr), (Z.ltb_spec hr 0); simpl; lia. Qed.

Lemma E_POINTER_failed : FAILED E_POINTER = true.
Proof. reflexivity. Qed.

Lemma S_FALSE_succeeded : SUCCEEDED S_FALSE = true.
Proof. reflexivity. Qed.

(** Runs a straight-line [proc] on a symbolic world. *)
Ltac run_proc :=
  unfold mbind, mret, proc_bind, proc_ret, MessageBoxA, DebugBreak,
    OutputDebugStringA, ExitProcess, RETURN_HR, store, emit;
  cbn [mem trace]; rewrite <- ?app_assoc.

Lemma abi_t_eqb_eq (a b : abi_t) : abi_t_eqb a b = true <-> a = b.
Proof.
  unfold abi_t_eqb. rewrite !andb_true_iff, !Z.eqb_eq.
  destruct a, b; cbn [Major Minor Build Revision]. split.
  - intros [[[-> ->] ->] ->]. reflexivity.
  - intros [= -> -> -> ->]. auto.
Qed.

Lemma abi_t_compare_eq (a b : abi_t) : abi_t_compare a b = Eq <-> a = b.
Proof.
  unfold abi_t_compare. destruct a as [a1 a2 a3 a4], b as [b1 b2 b3 b4].
  cbn [Major Minor Build Revision]. split.
  - destruct (Z.compare_spec a1 b1); try discriminate.
    destruct (Z.compare_spec a2 b2); try discriminate.
    destruct (Z.compare_spec a3 b3); try discriminate.
    destruct (Z.compare_spec a4 b4); try discriminate.
    intros _. congruence.
  - intros [= -> -> -> ->]. now rewrite !Z.compare_refl.
Qed.

Lemma bind_returned {A B : Type} (m : proc A) (k : A -> proc B) w a w' :
  m w = Returned a w' -> (m ≫= k) w = k a w'.
Proof. intros H. unfold mbind, proc_bind. now rewrite H. Qed.

Lemma bind_exited {A B : Type} (m : proc A) (k : A -> proc B) w c w' :
  m w = Exited c w' -> (m ≫= k) w = Exited c w'.
Proof. intros H. unfold mbind, proc_bind. now rewrite H. Qed.

Lemma negotiations_app (t u : list event) :
  negotiations (t ++ u) = negotiations t ++ negotiations u.
Proof. unfold negotiations. apply List.filter_app. Qed.

Lemma eqb_nullptr_false (p : addr) : p <> nullptr -> (p =? nullptr) = false.
Proof. intros H. now apply Z.eqb_neq. Qed.

(** ** The unwrap protocol *)

Section Unwrap.

Variable ppvObject : addr.
Hypothesis writable : ppvObject <> nullptr.

Lemma UnwrapInterface_absent (w : World) :
  xcom.UnwrapInterface None ppvObject w
  = Returned S_FALSE
      {| mem := <[ppvObject := nullptr]> (mem w); trace := trace w |}.
Proof.
  unfold xcom.UnwrapInterface. now rewrite eqb_nullptr_false.
Qed.

Lemma UnwrapInterface_present (obj : IUnknown) (w : World) :
  xcom.UnwrapInterface (Some obj) ppvObject w
  = match call_QueryInterface obj GUID_UnwrapInterface ppvObject w with
    | Returned hr w1 =>
        if SUCCEEDED hr then Returned hr w1
        else Returned hr {| mem := <[ppvObject := nullptr]> (mem w1);
                            trace := trace w1 |}
    | Exited c w1 => Exited c w1
    end.
Proof.
  unfold xcom.UnwrapInterface. rewrite eqb_nullptr_false by assumption.
  unfold mbind at 1, proc_bind at 1.
  destruct (call_QueryInterface obj GUID_UnwrapInterface ppvObject w)
    as [hr w1 | c w1]; [| reflexivity].
  now destruct (SUCCEEDED hr).
Qed.

End Unwrap.

(** C7.  Whatever the input reference, a call with a null output location
    returns [E_POINTER], a failure, and does nothing else to the process:
    memory is as it was, no negotiation call is made (the trace gains the
    failure report of [RETURN_HR] and nothing more). *)
Theorem UnwrapInterface_null_output (pUnknown : option IUnknown) (w : World) :
  xcom.UnwrapInterface pUnknown nullptr w
  = Returned E_POINTER
      {| mem := mem w; trace := trace w ++ [EvReportFailure E_POINTER] |}
  /\ FAILED E_POINTER = true
  /\ mem (final_world (xcom.UnwrapInterface pUnknown nullptr w)) = mem w
  /\ negotiations (trace (final_world (xcom.UnwrapInterface pUnknown nullptr w)))
     = negotiations (trace w).
Proof.
  assert (E : xcom.UnwrapInterface pUnknown nullptr w
              = Returned E_POINTER
                  {| mem := mem w;
                     trace := trace w ++ [EvReportFailure E_POINTER] |})
    by reflexivity.
  rewrite E. simpl. repeat split.
  rewrite negotiations_app. simpl. apply app_nil_r.
Qed.

(** C6.  With a writable output location and no input reference, the call
    writes null into the location and returns [S_FALSE], a success status
    other than [S_OK]; the trace is unchanged, so no negotiation call was
    made. *)
Theorem UnwrapInterface_null_reference (ppvObject : addr) (w : World) :
  ppvObject <> nullptr ->
  exists w',
    xcom.UnwrapInterface None ppvObject w = Returned S_FALSE w'
    /\ mem w' !! ppvObject = Some nullptr
    /\ S_FALSE <> S_OK
    /\ SUCCEEDED S_FALSE = true
    /\ trace w' = trace w.
Proof.
  intros Hout. eexists. split; [now apply UnwrapInterface_absent |].
  simpl. split; [apply lookup_insert_eq |].
  repeat split. discriminate.
Qed.

Lemma UnwrapInterface_null_reference_witness :
  64 <> nullptr
  /\ exists w',
       xcom.UnwrapInterface None 64 Fake.start = Returned S_FALSE w'
       /\ mem w' !! 64 = Some nullptr
       /\ S_FALSE <> S_OK
       /\ SUCCEEDED S_FALSE = true
       /\ trace w' = trace Fake.start.
Proof.
  assert (H : 64 <> nullptr) by discriminate.
  split; [exact H |].
  exact (UnwrapInterface_null_reference 64 Fake.start H).
Defined.

(** C5.  When the negotiation call on a present reference returns a
    failure code, the unwrap returns that very code and the output
    location holds null; nothing else of what the negotiation left behind
    is touched. *)
Theorem UnwrapInterface_negotiation_failure
    (obj : IUnknown) (ppvObject : addr) (w : World)
    (hr : HRESULT) (w1 : World) :
  ppvObject <> nullptr ->
  call_QueryInterface obj GUID_UnwrapInterface ppvObject w = Returned hr w1 ->
  FAILED hr = true ->
  exists w',
    xcom.UnwrapInterface (Some obj) ppvObject w = Returned hr w'
    /\ mem w' !! ppvObject = Some nullptr
    /\ mem w' = <[ppvObject := nullptr]> (mem w1)
    /\ trace w' = trace w1.
Proof.
  intros Hout Hcall Hfail.
  rewrite FAILED_not_SUCCEEDED in Hfail. apply negb_true_iff in Hfail.
  eexists. split.
  - rewrite UnwrapInterface_present by assumption.
    rewrite Hcall, Hfail. reflexivity.
  - simpl. split; [apply lookup_insert_eq | split; reflexivity].
Qed.

Lemma UnwrapInterface_negotiation_failure_witness :
  exists w',
    xcom.UnwrapInterface (Some Fake.stranger) 64 Fake.start
    = Returned E_NOINTERFACE w'
    /\ mem w' !! 64 = Some nullptr
    /\ mem w' = <[64 := nullptr]> (mem Fake.start)
    /\ trace w'
       = [EvQueryInterface 8192 GUID_UnwrapInterface 64].
Proof.
  assert (Hout : 64 <> nullptr) by discriminate.
  assert (Hfail : FAILED E_NOINTERFACE = true) by reflexivity.
  exact (UnwrapInterface_negotiation_failure Fake.stranger 64 Fake.start
           E_NOINTERFACE
           {| mem := mem Fake.start;
              trace := [EvQueryInterface 8192 GUID_UnwrapInterface 64] |}
           Hout eq_refl Hfail).
Defined.

(** C10.  On a successful negotiation the unwrap hands back the status of
    the negotiation call itself, with the world exactly as that call left
    it.  So when the negotiation's success status is [S_FALSE], the value
    returned is the one returned for an absent reference: the return
    value alone does not tell the two apart. *)
Theorem UnwrapInterface_success_status
    (obj : IUnknown) (ppvObject : addr) (w : World)
    (hr : HRESULT) (w1 : World) :
  ppvObject <> nullptr ->
  call_QueryInterface obj GUID_UnwrapInterface ppvObject w = Returned hr w1 ->
  SUCCEEDED hr = true ->
  xcom.UnwrapInterface (Some obj) ppvObject w = Returned hr w1
  /\ (hr = S_FALSE ->
      forall w0,
        returned_value (xcom.UnwrapInterface (Some obj) ppvObject w)
        = returned_value (xcom.UnwrapInterface None ppvObject w0)).
Proof.
  intros Hout Hcall Hok.
  assert (E : xcom.UnwrapInterface (Some obj) ppvObject w = Returned hr w1).
  { rewrite UnwrapInterface_present by assumption.
    rewrite Hcall, Hok. reflexivity. }
  split; [exact E |].
  intros -> w0. rewrite E, UnwrapInterface_absent by assumption.
  reflexivity.
Qed.

Lemma UnwrapInterface_success_status_witness :
  exists w1,
    (xcom.UnwrapInterface (Some (Fake.object S_FALSE)) 64 Fake.start
     = Returned S_FALSE w1
     /\ (S_FALSE = S_FALSE ->
         forall w0,
           returned_value
             (xcom.UnwrapInterface (Some (Fake.object S_FALSE)) 64 Fake.start)
           = returned_value (xcom.UnwrapInterface None 64 w0)))
    /\ mem w1 !! 64 = Some 4096.
Proof.
  assert (Hout : 64 <> nullptr) by discriminate.
  eexists. split.
  - exact (UnwrapInterface_success_status (Fake.object S_FALSE) 64 Fake.start
             S_FALSE _ Hout eq_refl eq_refl).
  - reflexivity.
Defined.

Lemma Fake_object_honours_negotiation (status : HRESULT) :
  honours_negotiation Fake.live (Fake.object status).
Proof.
  intros riid ppvObject w hr w' Hout Hcall Hok.
  unfold call_QueryInterface, Fake.object, Fake.query in Hcall.
  unfold mbind, proc_bind, emit in Hcall.
  cbn [this_ptr lpVtbl QueryInterface mem trace] in Hcall.
  destruct (decide (riid = GUID_UnwrapInterface)) as [-> | Hne].
  - injection Hcall as <- <-. cbn [mem trace].
    exists 4096. split; [apply lookup_insert_eq |].
    unfold Fake.live. destruct (decide (ppvObject = 4096)) as [-> | Hp].
    + exists 4096. cbn [mem]. split; [apply lookup_insert_eq | lia].
    + eexists. cbn [mem]. split.
      * rewrite lookup_insert_ne by assumption. apply lookup_insert_eq.
      * unfold Fake.count. lia.
  - injection Hcall as <- <-. discriminate Hok.
Qed.

(** C1.  After a call with a writable output location that returns, the
    location holds null, or it holds what the successful negotiation call
    left there, which by that call's contract is a valid reference owned
    by the caller; it is never left as it was found.  Whenever the status
    returned is a failure, and whenever the input reference was absent,
    the location holds null. *)
Theorem UnwrapInterface_output_safe
    (valid_owned : World -> addr -> Prop)
    (pUnknown : option IUnknown) (ppvObject : addr) (w : World)
    (hr : HRESULT) (w' : World) :
  ppvObject <> nullptr ->
  (forall obj, pUnknown = Some obj -> honours_negotiation valid_owned obj) ->
  xcom.UnwrapInterface pUnknown ppvObject w = Returned hr w' ->
  (mem w' !! ppvObject = Some nullptr
   \/ exists obj p,
        pUnknown = Some obj
        /\ call_QueryInterface obj GUID_UnwrapInterface ppvObject w
           = Returned hr w'
        /\ SUCCEEDED hr = true
        /\ mem w' !! ppvObject = Some p
        /\ valid_owned w' p)
  /\ (FAILED hr = true -> mem w' !! ppvObject = Some nullptr)
  /\ (pUnknown = None -> mem w' !! ppvObject = Some nullptr).
Proof.
  intros Hout Hcontract Hrun.
  destruct pUnknown as [obj |].
  - rewrite UnwrapInterface_present in Hrun by assumption.
    destruct (call_QueryInterface obj GUID_UnwrapInterface ppvObject w)
      as [hr1 w1 | c w1] eqn:Hcall; [| discriminate Hrun].
    destruct (SUCCEEDED hr1) eqn:Hok; injection Hrun as <- <-.
    + destruct (Hcontract obj eq_refl _ _ _ _ _ Hout Hcall Hok)
        as (p & Hp & Hvalid).
      split; [right; exists obj, p; repeat split; assumption |].
      split; [| discriminate].
      rewrite FAILED_not_SUCCEEDED, Hok. discriminate.
    + simpl. rewrite lookup_insert_eq. repeat split; auto.
  - rewrite UnwrapInterface_absent in Hrun by assumption.
    injection Hrun as <- <-. simpl. rewrite lookup_insert_eq.
    repeat split; auto.
Qed.

Lemma UnwrapInterface_output_safe_witness :
  exists w',
    xcom.UnwrapInterface (Some (Fake.object S_OK)) 64 Fake.start
    = Returned S_OK w'
    /\ mem w' !! 64 = Some 4096
    /\ ((mem w' !! 64 = Some nullptr
         \/ exists obj p,
              Some (Fake.object S_OK) = Some obj
              /\ call_QueryInterface obj GUID_UnwrapInterface 64 Fake.start
                 = Returned S_OK w'
              /\ SUCCEEDED S_OK = true
              /\ mem w' !! 64 = Some p
              /\ Fake.live w' p)
        /\ (FAILED S_OK = true -> mem w' !! 64 = Some nullptr)
        /\ (Some (Fake.object S_OK) = None -> mem w' !! 64 = Some nullptr)).
Proof.
  assert (Hout : 64 <> nullptr) by discriminate.
  assert (Hcontract : forall obj,
             Some (Fake.object S_OK) = Some obj ->
             honours_negotiation Fake.live obj).
  { intros obj [= <-]. apply Fake_object_honours_negotiation. }
  eexists. split; [reflexivity |]. split; [reflexivity |].
  exact (UnwrapInterface_output_safe Fake.live (Some (Fake.object S_OK)) 64
           Fake.start S_OK _ Hout Hcontract eq_refl).
Defined.

(** ** Interface identity *)

Lemma specialize_lookup_other (T U : interface_type) (g : GUID)
    (tu tu' : translation_unit) :
  specialize T g tu = Some tu' ->
  T <> U ->
  xcom.guid_of tu' U = xcom.guid_of tu U.
Proof.
  unfold specialize, xcom.guid_of, xcom.impl.guid_v. intros Hs Hne.
  destruct (guid_v_specializations tu !! T); [discriminate Hs |].
  injection Hs as <-. cbn [guid_v_specializations uuidof].
  now rewrite lookup_insert_ne.
Qed.

Lemma specialize_lookup_same (T : interface_type) (g : GUID)
    (tu tu' : translation_unit) :
  specialize T g tu = Some tu' -> xcom.guid_of tu' T = Some g.
Proof.
  unfold specialize, xcom.guid_of, xcom.impl.guid_v. intros Hs.
  destruct (guid_v_specializations tu !! T); [discriminate Hs |].
  injection Hs as <-. cbn [guid_v_specializations].
  now rewrite lookup_insert_eq.
Qed.

(** What [DECLARE_ABI_UUIDOF_HELPER] declares is what the family lookup
    finds. *)
Lemma DECLARE_ABI_UUIDOF_HELPER_lookup (T : string)
    (a b c d e f g h i j k : Z) (tu tu' : translation_unit) :
  DECLARE_ABI_UUIDOF_HELPER T a b c d e f g h i j k tu = Some tu' ->
  xcom.guid_of_template tu' T = Some (mkGUID a b c [d; e; f; g; h; i; j; k]).
Proof. apply specialize_lookup_same. Qed.

(** C2.  The lookup for a version-parameterized template is the lookup
    for the template instantiated at the default-constructed version,
    whose four members are zero.  The family has this one identifier: an
    identifier declared for the instantiation at any other version does
    not change what the family lookup yields. *)
Theorem guid_of_template_collapses (tu : translation_unit) (T : string) :
  xcom.guid_of_template tu T = xcom.guid_of tu (Instance_of T abi_t_default)
  /\ abi_t_default = mk_abi_t 0 0 0 0
  /\ (forall (v : abi_t) (g : GUID) (tu' : translation_unit),
        v <> abi_t_default ->
        specialize (Instance_of T v) g tu = Some tu' ->
        xcom.guid_of_template tu' T = xcom.guid_of_template tu T).
Proof.
  split; [reflexivity |]. split; [reflexivity |].
  intros v g tu' Hv Hs. unfold xcom.guid_of_template.
  apply (specialize_lookup_other _ _ _ _ _ Hs).
  intros [= ->]. now apply Hv.
Qed.

Lemma guid_of_template_collapses_witness :
  Fake.v10 <> abi_t_default
  /\ specialize (Instance_of "IGraphics" Fake.v10) Fake.other_id Fake.declared
     = Some Fake.versioned
  /\ xcom.guid_of Fake.versioned (Instance_of "IGraphics" Fake.v10)
     = Some Fake.other_id
  /\ xcom.guid_of_template Fake.declared "IGraphics" = Some Fake.family_id
  /\ xcom.guid_of_template Fake.versioned "IGraphics"
     = xcom.guid_of_template Fake.declared "IGraphics".
Proof.
  assert (Hv : Fake.v10 <> abi_t_default) by discriminate.
  split; [exact Hv |].
  split; [reflexivity |]. split; [reflexivity |]. split; [reflexivity |].
  exact (proj2 (proj2 (guid_of_template_collapses Fake.declared "IGraphics"))
           Fake.v10 Fake.other_id Fake.versioned Hv eq_refl).
Defined.

(** ** The register-return adapter *)

Lemma sizeof_uintptr_t (a : arch) : sizeof a (uintptr_t a) = sizeof_pointer a.
Proof. now destruct a. Qed.

Lemma is_same_v_refl (T : cpp_type) : is_same_v T T = true.
Proof. unfold is_same_v. now destruct (cpp_type_eq_dec T T). Qed.

Lemma is_same_v_true (T U : cpp_type) : is_same_v T U = true <-> T = U.
Proof.
  unfold is_same_v. destruct (cpp_type_eq_dec T U); split;
    congruence || discriminate.
Qed.

Lemma uintptr_t_scalar (a : arch) :
  is_class_v (uintptr_t a) || is_union_v (uintptr_t a) = false.
Proof. now destruct a. Qed.

Lemma reg_return_t_unchanged (a : arch) (T : cpp_type) :
  reg_return_t a T = T -> forall value, to_reg_return a T value = value.
Proof.
  intros E value. unfold to_reg_return. now rewrite E, is_same_v_refl.
Qed.

Lemma reg_return_t_cases (a : arch) (T : cpp_type) :
  if (is_class_v T || is_union_v T)
     && (sizeof a T <=? sizeof_pointer a)%nat
  then reg_return_t a T = uintptr_t a
  else reg_return_t a T = T
       /\ forall value, to_reg_return a T value = value.
Proof.
  unfold reg_return_t at 1 2. rewrite sizeof_uintptr_t.
  destruct ((is_class_v T || is_union_v T)
            && (sizeof a T <=? sizeof_pointer a)%nat) eqn:E;
    [reflexivity |].
  split; [reflexivity |].
  apply reg_return_t_unchanged. unfold reg_return_t.
  now rewrite sizeof_uintptr_t, E.
Qed.

Lemma reg_return_t_scalar (a : arch) (T : cpp_type) :
  is_class_v T = false -> is_union_v T = false ->
  reg_return_t a T = T /\ forall value, to_reg_return a T value = value.
Proof.
  intros Hc Hu. pose proof (reg_return_t_cases a T) as H.
  now rewrite Hc, Hu in H.
Qed.

Lemma reg_return_t_large (a : arch) (T : cpp_type) :
  (sizeof_pointer a < sizeof a T)%nat ->
  reg_return_t a T = T /\ forall value, to_reg_return a T value = value.
Proof.
  intros Hlt. pose proof (reg_return_t_cases a T) as H.
  replace (sizeof a T <=? sizeof_pointer a)%nat with false in H
    by (symmetry; apply Nat.leb_gt; exact Hlt).
  now rewrite andb_false_r in H.
Qed.

Lemma reg_return_t_uintptr_t (a : arch) :
  reg_return_t a (uintptr_t a) = uintptr_t a.
Proof. unfold reg_return_t. now rewrite uintptr_t_scalar. Qed.

(** C3.  A class or union no larger than a pointer is adapted to
    [uintptr_t], the unsigned integer as wide as a pointer; every other
    type is adapted to itself and its values pass through unchanged.
    [uintptr_t] itself is among the latter. *)
Theorem reg_return_t_rule (a : arch) (T : cpp_type) :
  (if (is_class_v T || is_union_v T)
      && (sizeof a T <=? sizeof_pointer a)%nat
   then reg_return_t a T = uintptr_t a
   else reg_return_t a T = T
        /\ forall value, to_reg_return a T value = value)
  /\ (exists r, uintptr_t a = TInteger r true
                /\ sizeof_rank r = sizeof_pointer a)
  /\ reg_return_t a (uintptr_t a) = uintptr_t a
  /\ (forall value, to_reg_return a (uintptr_t a) value = value).
Proof.
  split; [apply reg_return_t_cases | split; [| split]].
  - destruct a; eexists; split; reflexivity.
  - apply reg_return_t_uintptr_t.
  - apply reg_return_t_unchanged, reg_return_t_uintptr_t.
Qed.

Example reg_return_t_small_class :
  reg_return_t X64 (TClass "D3D12_CPU_DESCRIPTOR_HANDLE" 8)
  = TInteger RLongLong true.
Proof. reflexivity. Qed.

Example reg_return_t_large_class :
  reg_return_t X86 (TClass "LUID" 8) = TClass "LUID" 8.
Proof. reflexivity. Qed.

Example reg_return_t_pointer :
  reg_return_t X64 (TPointer "void") = TPointer "void".
Proof. reflexivity. Qed.

(** ** Storage reinterpretation *)

Lemma memcpy_into_zeros (value : object_repr) (n m : nat) :
  length value = n -> (n <= m)%nat ->
  memcpy (repeat Byte.x00 m) value n = value ++ repeat Byte.x00 (m - n).
Proof.
  intros Hlen Hle. unfold memcpy. f_equal.
  - apply firstn_all2. lia.
  - replace m with (n + (m - n))%nat at 1 by lia.
    rewrite repeat_app, skipn_app, repeat_length, Nat.sub_diag.
    rewrite skipn_all2 by (rewrite repeat_length; lia).
    reflexivity.
Qed.

Lemma unsigned_value_zero_extended (value : object_repr) (k : nat) :
  unsigned_value (value ++ repeat Byte.x00 k) = unsigned_value value.
Proof.
  unfold unsigned_value.
  rewrite le_combine_app, le_combine_0, Z.shiftl_0_l. apply Z.lor_0_r.
Qed.

Lemma byte_of_unsigned_value_low (value : object_repr) (i : nat) :
  (i < length value)%nat ->
  byte_of (unsigned_value value) i = byte.unsigned (nth i value Byte.x00).
Proof.
  intros Hi. unfold byte_of, unsigned_value.
  pose proof (nth_error_le_split i (length value) (le_combine value) Hi) as H.
  rewrite split_le_combine in H.
  rewrite (nth_error_nth _ _ Byte.x00 H).
  rewrite byte.unsigned_of_Z. unfold byte.wrap.
  change 255 with (Z.ones 8). rewrite Z.land_ones by lia. reflexivity.
Qed.

Lemma byte_of_unsigned_value_high (value : object_repr) (i : nat) :
  (length value <= i)%nat -> byte_of (unsigned_value value) i = 0.
Proof.
  intros Hi. unfold byte_of, unsigned_value.
  pose proof (le_combine_bound value) as [Hlo Hhi].
  rewrite Z.shiftr_div_pow2 by lia.
  rewrite Z.div_small; [reflexivity |].
  split; [exact Hlo |].
  eapply Z.lt_le_trans; [exact Hhi |].
  apply Z.pow_le_mono_r; lia.
Qed.

(** C4.  For a class or union [T] no larger than a pointer, the adapter
    returns a pointer-wide object whose first [sizeof(T)] bytes are the
    bytes of the value and whose remaining bytes are zero.  Read as the
    unsigned integer it is, byte by byte from the least significant one,
    it shows the value's bytes and then zeros: the number is the
    little-endian reading of the storage, nothing else. *)
Theorem to_reg_return_reinterprets
    (a : arch) (T : cpp_type) (value : object_repr) :
  is_class_v T || is_union_v T = true ->
  (sizeof a T <= sizeof_pointer a)%nat ->
  length value = sizeof a T ->
  reg_return_t a T = uintptr_t a
  /\ to_reg_return a T value
     = value ++ repeat Byte.x00 (sizeof_pointer a - sizeof a T)
  /\ length (to_reg_return a T value) = sizeof_pointer a
  /\ (forall i, (i < sizeof a T)%nat ->
        byte_of (unsigned_value (to_reg_return a T value)) i
        = byte.unsigned (nth i value Byte.x00))
  /\ (forall i, (sizeof a T <= i)%nat ->
        byte_of (unsigned_value (to_reg_return a T value)) i = 0)
  /\ unsigned_value (to_reg_return a T value) = unsigned_value value.
Proof.
  intros Hagg Hsize Hlen.
  assert (Ht : reg_return_t a T = uintptr_t a).
  { unfold reg_return_t. rewrite Hagg, sizeof_uintptr_t.
    now replace (sizeof a T <=? sizeof_pointer a)%nat with true
      by (symmetry; apply Nat.leb_le; exact Hsize). }
  assert (Hdiff : is_same_v T (uintptr_t a) = false).
  { destruct (is_same_v T (uintptr_t a)) eqn:E; [| reflexivity].
    apply is_same_v_true in E. subst T.
    now rewrite uintptr_t_scalar in Hagg. }
  assert (Hreg : to_reg_return a T value
                 = value ++ repeat Byte.x00 (sizeof_pointer a - sizeof a T)).
  { unfold to_reg_return, zero_init. rewrite Ht, Hdiff, sizeof_uintptr_t.
    now apply memcpy_into_zeros. }
  split; [exact Ht |]. split; [exact Hreg |].
  rewrite Hreg, unsigned_value_zero_extended.
  split; [rewrite length_app, repeat_length; lia |].
  split; [| split; [| reflexivity]].
  - intros i Hi. apply byte_of_unsigned_value_low. lia.
  - intros i Hi. apply byte_of_unsigned_value_high. lia.
Qed.

Lemma to_reg_return_reinterprets_witness :
  to_reg_return X64 Fake.rgb Fake.rgb_value
  = [Byte.x11; Byte.x22; Byte.x33;
     Byte.x00; Byte.x00; Byte.x00; Byte.x00; Byte.x00]
  /\ unsigned_value (to_reg_return X64 Fake.rgb Fake.rgb_value) = 0x332211
  /\ byte_of (unsigned_value (to_reg_return X64 Fake.rgb Fake.rgb_value)) 1
     = byte.unsigned (nth 1 Fake.rgb_value Byte.x00).
Proof.
  assert (Hagg : is_class_v Fake.rgb || is_union_v Fake.rgb = true)
    by reflexivity.
  assert (Hsize : (sizeof X64 Fake.rgb <= sizeof_pointer X64)%nat)
    by (simpl; lia).
  assert (Hlen : length Fake.rgb_value = sizeof X64 Fake.rgb) by reflexivity.
  pose proof (to_reg_return_reinterprets X64 Fake.rgb Fake.rgb_value
                Hagg Hsize Hlen) as (_ & Hreg & _ & Hlow & _ & Hnum).
  split; [exact Hreg |]. split; [rewrite Hnum; reflexivity |].
  apply Hlow. simpl. lia.
Defined.

(** ** Diagnostics *)

Lemma debug_chunks_outputs (chunks : list string) :
  debug_chunks (map EvOutputDebugStringA chunks) = chunks.
Proof. induction chunks as [| s chunks IH]; simpl; congruence. Qed.

Lemma todo_type_nullptr (b : build) : xcom.todo_type b nullptr = None.
Proof. unfold xcom.todo_type. now destruct (_CPPRTTI b). Qed.

Lemma todo_type_rtti (b : build) (object : addr) :
  _CPPRTTI b = true -> object <> nullptr ->
  xcom.todo_type b object = Some (type_info_name (__RTtypeid b object)).
Proof.
  intros Hb Ho. unfold xcom.todo_type.
  now rewrite Hb, eqb_nullptr_false.
Qed.

(** C8.  The incomplete marker always returns to its caller, leaving
    memory alone.  What it hands to [OutputDebugStringA], put together in
    order, is exactly ["TODO: n(from t)\n"] when a type name [t] was
    resolved and exactly ["TODO: n\n"] when none was; none is resolved
    for a null object. *)
Theorem TodoHandler_line (b : build) (name : string) (object : addr)
    (w : World) :
  exists chunks : list string,
    xcom.TodoHandler b name object w
    = Returned tt
        {| mem := mem w;
           trace := trace w ++ map EvOutputDebugStringA chunks |}
    /\ String.concat "" chunks = todo_line name (xcom.todo_type b object)
    /\ debug_text (map EvOutputDebugStringA chunks)
       = todo_line name (xcom.todo_type b object)
    /\ xcom.todo_type b nullptr = None.
Proof.
  unfold xcom.TodoHandler.
  destruct (xcom.todo_type b object) as [t |].
  - exists ["TODO: "; name; "(from "; t; ")"; LF]%string.
    split; [| split; [| split]].
    + run_proc. reflexivity.
    + reflexivity.
    + unfold debug_text. rewrite debug_chunks_outputs. reflexivity.
    + apply todo_type_nullptr.
  - exists ["TODO: "; name; LF]%string.
    split; [| split; [| split]].
    + run_proc. reflexivity.
    + reflexivity.
    + unfold debug_text. rewrite debug_chunks_outputs. reflexivity.
    + apply todo_type_nullptr.
Qed.

Example TodoHandler_null_object :
  xcom.TodoHandler Fake.rtti "Foo" nullptr Fake.start
  = Returned tt
      {| mem := mem Fake.start;
         trace := map EvOutputDebugStringA ["TODO: "; "Foo"; LF]%string |}
  /\ debug_text (map EvOutputDebugStringA ["TODO: "; "Foo"; LF]%string)
     = ("TODO: Foo" ++ LF)%string.
Proof. split; reflexivity. Qed.

Example TodoHandler_named_object :
  debug_text
    (trace (final_world (xcom.TodoHandler Fake.rtti "Foo" 4096 Fake.start)))
  = ("TODO: Foo(from Bar)" ++ LF)%string.
Proof. reflexivity. Qed.

Example TodoHandler_without_rtti :
  debug_text
    (trace (final_world (xcom.TodoHandler Fake.no_rtti "Foo" 4096 Fake.start)))
  = ("TODO: Foo" ++ LF)%string.
Proof. reflexivity. Qed.

Lemma StubHandler_exits (b : build) (name : string) (object : addr)
    (w : World) :
  xcom.StubHandler b name object w
  = Exited 0
      {| mem := mem w;
         trace := trace w
                  ++ [EvMessageBoxA nullptr name (xcom.stub_type b object)
                        MB_ICONERROR]
                  ++ (if _DEBUG b then [EvDebugBreak] else [])
                  ++ [EvExitProcess 0] |}.
Proof.
  unfold xcom.StubHandler. destruct (_DEBUG b); run_proc; reflexivity.
Qed.

Lemma IMPLEMENT_STUB_never_returns (b : build) (func : string)
    (this : option addr) (w : World) :
  returned_value (IMPLEMENT_STUB b func this w) = None.
Proof. unfold IMPLEMENT_STUB. now rewrite StubHandler_exits. Qed.

Example StubHandler_null_object :
  xcom.StubHandler Fake.no_rtti "Foo" nullptr Fake.start
  = Exited 0
      {| mem := mem Fake.start;
         trace := [EvMessageBoxA nullptr "Foo" "STUB" MB_ICONERROR;
                   EvDebugBreak; EvExitProcess 0] |}.
Proof. reflexivity. Qed.

(** C9.  The fatal stub never returns to its caller, whatever the build,
    the method name and the object: it presents the message box, breaks
    into the debugger in a debug build, and ends the process. *)
Theorem StubHandler_never_returns (b : build) (name : string)
    (object : addr) (w : World) :
  (forall (r : unit) (w' : World),
      xcom.StubHandler b name object w <> Returned r w')
  /\ returned_value (xcom.StubHandler b name object w) = None
  /\ xcom.StubHandler b name object w
     = Exited 0
         {| mem := mem w;
            trace := trace w
                     ++ [EvMessageBoxA nullptr name (xcom.stub_type b object)
                           MB_ICONERROR]
                     ++ (if _DEBUG b then [EvDebugBreak] else [])
                     ++ [EvExitProcess 0] |}.
Proof.
  pose proof (StubHandler_exits b name object w) as E.
  split; [| split; [| exact E]].
  - intros r w'. rewrite E. discriminate.
  - now rewrite E.
Qed.

(** * Further properties of the code *)

(** ** The order on [abi_t] *)

Lemma abi_t_compare_lt_iff (a b : abi_t) :
  abi_t_compare a b = Lt <->
  Major a < Major b
  \/ Major a = Major b
     /\ (Minor a < Minor b
         \/ Minor a = Minor b
            /\ (Build a < Build b
                \/ Build a = Build b /\ Revision a < Revision b)).
Proof.
  unfold abi_t_compare.
  destruct (Z.compare_spec (Major a) (Major b));
    destruct (Z.compare_spec (Minor a) (Minor b));
    destruct (Z.compare_spec (Build a) (Build b));
    destruct (Z.compare_spec (Revision a) (Revision b));
    split; intros; try discriminate; try reflexivity; lia.
Qed.

(** X1.  [operator<=>] reports equality exactly when [operator==] holds. *)
Theorem abi_t_compare_agrees_with_eqb (a b : abi_t) :
  abi_t_compare a b = Eq <-> abi_t_eqb a b = true.
Proof. rewrite abi_t_compare_eq, abi_t_eqb_eq. reflexivity. Qed.

(** X2.  Swapping the operands of [operator<=>] reverses its result. *)
Theorem abi_t_compare_antisym (a b : abi_t) :
  abi_t_compare b a = CompOpp (abi_t_compare a b).
Proof.
  unfold abi_t_compare.
  rewrite (Z.compare_antisym (Major a)), (Z.compare_antisym (Minor a)),
    (Z.compare_antisym (Build a)), (Z.compare_antisym (Revision a)).
  destruct (Major a ?= Major b), (Minor a ?= Minor b),
    (Build a ?= Build b), (Revision a ?= Revision b); reflexivity.
Qed.

(** X3.  The order [operator<=>] induces is transitive. *)
Theorem abi_t_compare_trans (a b c : abi_t) :
  abi_t_compare a b = Lt -> abi_t_compare b c = Lt -> abi_t_compare a c = Lt.
Proof. rewrite !abi_t_compare_lt_iff. lia. Qed.

Lemma abi_t_compare_trans_witness :
  abi_t_compare Sample.v1_0 Sample.v2_0 = Lt.
Proof.
  exact (abi_t_compare_trans Sample.v1_0 Sample.v1_2 Sample.v2_0
           eq_refl eq_refl).
Defined.

(** X4.  The default-constructed [abi_t] is the least one: no version
    with [uint32_t] members compares below it, and every other one
    compares above it. *)
Theorem abi_t_default_least (v : abi_t) :
  abi_t_wf v ->
  abi_t_compare abi_t_default v <> Gt
  /\ (v <> abi_t_default -> abi_t_compare abi_t_default v = Lt).
Proof.
  intros (H1 & H2 & H3 & H4). unfold uint32_range in *.
  assert (Hne : abi_t_compare abi_t_default v <> Gt).
  { unfold abi_t_compare, abi_t_default. cbn [Major Minor Build Revision].
    destruct (Z.compare_spec 0 (Major v)); try lia; try discriminate.
    destruct (Z.compare_spec 0 (Minor v)); try lia; try discriminate.
    destruct (Z.compare_spec 0 (Build v)); try lia; try discriminate.
    destruct (Z.compare_spec 0 (Revision v)); try lia; discriminate. }
  split; [exact Hne |].
  intros Hv. destruct (abi_t_compare abi_t_default v) eqn:E.
  - apply abi_t_compare_eq in E. congruence.
  - reflexivity.
  - contradiction.
Qed.

Lemma abi_t_default_least_witness :
  abi_t_compare abi_t_default Fake.v10 <> Gt
  /\ (Fake.v10 <> abi_t_default -> abi_t_compare abi_t_default Fake.v10 = Lt).
Proof.
  apply (abi_t_default_least Fake.v10).
  unfold abi_t_wf, uint32_range. simpl. lia.
Defined.

(** ** Declaring identifiers *)

(** X5.  After [DECLARE_UUIDOF_HELPER(type, a, ..., k)] the lookup for
    [type] yields the identifier with these eleven fields, whatever
    [__uuidof] holds for it, and the lookup for every other type is as
    before. *)
Theorem DECLARE_UUIDOF_HELPER_lookup (T : interface_type)
    (a b c d e f g h i j k : Z) (tu tu' : translation_unit) :
  DECLARE_UUIDOF_HELPER T a b c d e f g h i j k tu = Some tu' ->
  xcom.guid_of tu' T = Some (mkGUID a b c [d; e; f; g; h; i; j; k])
  /\ (forall U, U <> T -> xcom.guid_of tu' U = xcom.guid_of tu U).
Proof.
  intros Hd. split.
  - exact (specialize_lookup_same _ _ _ _ Hd).
  - intros U HU. apply (specialize_lookup_other _ _ _ _ _ Hd). congruence.
Qed.

Lemma DECLARE_UUIDOF_HELPER_lookup_witness :
  xcom.guid_of Fake.versioned (Instance_of "IGraphics" Fake.v10)
  = Some (mkGUID 0x99999999 0x8888 0x7777 [8; 7; 6; 5; 4; 3; 2; 1])
  /\ (forall U, U <> Instance_of "IGraphics" Fake.v10 ->
        xcom.guid_of Fake.versioned U = xcom.guid_of Fake.declared U).
Proof.
  exact (DECLARE_UUIDOF_HELPER_lookup (Instance_of "IGraphics" Fake.v10)
           0x99999999 0x8888 0x7777 8 7 6 5 4 3 2 1
           Fake.declared Fake.versioned eq_refl).
Defined.

(** X6.  [DECLARE_ABI_UUIDOF_HELPER(type, ...)] gives the family lookup
    for [type] its identifier and nothing more: the lookup for [type]
    instantiated at any version other than the default one, and for any
    other interface, is as before. *)
Theorem DECLARE_ABI_UUIDOF_HELPER_default_only (T : string)
    (a b c d e f g h i j k : Z) (tu tu' : translation_unit) :
  DECLARE_ABI_UUIDOF_HELPER T a b c d e f g h i j k tu = Some tu' ->
  xcom.guid_of_template tu' T
  = Some (mkGUID a b c [d; e; f; g; h; i; j; k])
  /\ (forall v, v <> abi_t_default ->
        xcom.guid_of tu' (Instance_of T v) = xcom.guid_of tu (Instance_of T v))
  /\ (forall n, xcom.guid_of tu' (Interface n) = xcom.guid_of tu (Interface n))
  /\ (forall T', T' <> T ->
        xcom.guid_of_template tu' T' = xcom.guid_of_template tu T').
Proof.
  intros Hd. split; [exact (specialize_lookup_same _ _ _ _ Hd) |].
  split; [| split].
  - intros v Hv. apply (specialize_lookup_other _ _ _ _ _ Hd). congruence.
  - intros n. apply (specialize_lookup_other _ _ _ _ _ Hd). discriminate.
  - intros T' HT'. unfold xcom.guid_of_template.
    apply (specialize_lookup_other _ _ _ _ _ Hd). congruence.
Qed.

Lemma DECLARE_ABI_UUIDOF_HELPER_default_only_witness :
  xcom.guid_of_template Fake.declared "IGraphics" = Some Fake.family_id
  /\ xcom.guid_of Fake.declared (Instance_of "IGraphics" Fake.v10) = None.
Proof.
  destruct (DECLARE_ABI_UUIDOF_HELPER_default_only "IGraphics"
              0x11111111 0x2222 0x3333 1 2 3 4 5 6 7 8
              Fake.empty_unit Fake.declared eq_refl) as (Hfam & Hver & _).
  split; [exact Hfam |].
  rewrite Hver by discriminate. reflexivity.
Defined.

(** ** More on the register-return adapter *)

Lemma reg_return_t_changed (a : arch) (T : cpp_type) :
  reg_return_t a T <> T ->
  is_class_v T || is_union_v T = true
  /\ (sizeof a T <= sizeof_pointer a)%nat
  /\ reg_return_t a T = uintptr_t a.
Proof.
  unfold reg_return_t. rewrite sizeof_uintptr_t.
  destruct (is_class_v T || is_union_v T); simpl; [| congruence].
  destruct (Nat.leb_spec (sizeof a T) (sizeof_pointer a)); [| congruence].
  auto.
Qed.

Lemma to_reg_return_cases (a : arch) (T : cpp_type) (value : object_repr) :
  length value = sizeof a T ->
  (reg_return_t a T = T /\ to_reg_return a T value = value)
  \/ (reg_return_t a T = uintptr_t a
      /\ (sizeof a T <= sizeof_pointer a)%nat
      /\ to_reg_return a T value
         = value ++ repeat Byte.x00 (sizeof_pointer a - sizeof a T)).
Proof.
  intros Hlen. destruct (cpp_type_eq_dec (reg_return_t a T) T) as [E | E].
  - left. split; [exact E | now apply reg_return_t_unchanged].
  - right. destruct (reg_return_t_changed a T E) as (Hagg & Hsize & Ht).
    split; [exact Ht |]. split; [exact Hsize |].
    unfold to_reg_return, zero_init.
    replace (is_same_v T (reg_return_t a T)) with false.
    + rewrite Ht, sizeof_uintptr_t. now apply memcpy_into_zeros.
    + symmetry. destruct (is_same_v T (reg_return_t a T)) eqn:S;
        [| reflexivity].
      apply is_same_v_true in S. congruence.
Qed.

(** X7.  Adapting twice is adapting once: what [reg_return_t] yields is
    its own adapted type. *)
Theorem reg_return_t_idempotent (a : arch) (T : cpp_type) :
  reg_return_t a (reg_return_t a T) = reg_return_t a T.
Proof.
  destruct (cpp_type_eq_dec (reg_return_t a T) T) as [E | E].
  - now rewrite E.
  - destruct (reg_return_t_changed a T E) as (_ & _ & ->).
    apply reg_return_t_uintptr_t.
Qed.

(** X8.  No adapted type is a class or union that fits a pointer: such a
    type never crosses the boundary as it is. *)
Theorem reg_return_t_never_small_aggregate (a : arch) (T : cpp_type) :
  (is_class_v (reg_return_t a T) || is_union_v (reg_return_t a T))
  && (sizeof a (reg_return_t a T) <=? sizeof_pointer a)%nat = false.
Proof.
  destruct (cpp_type_eq_dec (reg_return_t a T) T) as [E | E].
  - rewrite E.
    destruct ((is_class_v T || is_union_v T)
              && (sizeof a T <=? sizeof_pointer a)%nat) eqn:C;
      [| reflexivity].
    exfalso. pose proof (reg_return_t_cases a T) as H. rewrite C in H.
    rewrite E in H. subst T.
    now rewrite uintptr_t_scalar in C.
  - destruct (reg_return_t_changed a T E) as (_ & _ & ->).
    now rewrite uintptr_t_scalar.
Qed.

(** X9.  The adapter returns a whole object of the adapted type: given
    the [sizeof(T)] bytes of a value, the result has the size of
    [reg_return_t<T>], which is never less. *)
Theorem to_reg_return_length (a : arch) (T : cpp_type) (value : object_repr) :
  length value = sizeof a T ->
  length (to_reg_return a T value) = sizeof a (reg_return_t a T)
  /\ (sizeof a T <= sizeof a (reg_return_t a T))%nat.
Proof.
  intros Hlen.
  destruct (to_reg_return_cases a T value Hlen)
    as [[Ht Hv] | (Ht & Hsize & Hv)]; rewrite Ht, Hv.
  - split; [exact Hlen | lia].
  - rewrite sizeof_uintptr_t, length_app, repeat_length. lia.
Qed.

Lemma to_reg_return_length_witness :
  length (to_reg_return X64 Fake.rgb Fake.rgb_value) = 8%nat
  /\ (3 <= 8)%nat.
Proof.
  exact (to_reg_return_length X64 Fake.rgb Fake.rgb_value eq_refl).
Defined.

(** X10.  Nothing of the value is lost: for every type, the first
    [sizeof(T)] bytes of the result are the value, so two values with the
    same result are the same value. *)
Theorem to_reg_return_lossless (a : arch) (T : cpp_type)
    (value : object_repr) :
  length value = sizeof a T ->
  firstn (sizeof a T) (to_reg_return a T value) = value
  /\ (forall other : object_repr,
        length other = sizeof a T ->
        to_reg_return a T other = to_reg_return a T value ->
        other = value).
Proof.
  assert (Hfirst : forall v : object_repr,
             length v = sizeof a T ->
             firstn (sizeof a T) (to_reg_return a T v) = v).
  { intros v Hv.
    destruct (to_reg_return_cases a T v Hv) as [[_ E] | (_ & _ & E)];
      rewrite E.
    - apply firstn_all2. lia.
    - rewrite <- Hv. rewrite firstn_app, Nat.sub_diag, firstn_all.
      simpl. apply app_nil_r. }
  intros Hlen. split; [now apply Hfirst |].
  intros other Hother Heq.
  rewrite <- (Hfirst other Hother), Heq. now apply Hfirst.
Qed.

Lemma to_reg_return_lossless_witness :
  firstn 4 (to_reg_return X64 Sample.pair16 Sample.pair16_a) = Sample.pair16_a
  /\ to_reg_return X64 Sample.pair16 Sample.pair16_b
     <> to_reg_return X64 Sample.pair16 Sample.pair16_a.
Proof.
  destruct (to_reg_return_lossless X64 Sample.pair16 Sample.pair16_a eq_refl)
    as [Hfirst Hinj].
  split; [exact Hfirst |].
  intros Heq. specialize (Hinj Sample.pair16_b eq_refl Heq). discriminate Hinj.
Defined.

(** X11.  For a class or union that fits a pointer, the integer returned
    is below [2^(8 * sizeof(T))], and splitting it back into [sizeof(T)]
    little-endian bytes gives the value. *)
Theorem to_reg_return_decodes (a : arch) (T : cpp_type)
    (value : object_repr) :
  is_class_v T || is_union_v T = true ->
  (sizeof a T <= sizeof_pointer a)%nat ->
  length value = sizeof a T ->
  0 <= unsigned_value (to_reg_return a T value)
    < 2 ^ (8 * Z.of_nat (sizeof a T))
  /\ le_split (sizeof a T) (unsigned_value (to_reg_return a T value)) = value.
Proof.
  intros Hagg Hsize Hlen.
  destruct (to_reg_return_cases a T value Hlen)
    as [[Ht _] | (_ & _ & E)].
  - exfalso. pose proof (reg_return_t_cases a T) as H.
    rewrite Hagg in H.
    replace (sizeof a T <=? sizeof_pointer a)%nat with true in H
      by (symmetry; apply Nat.leb_le; exact Hsize).
    simpl in H. rewrite Ht in H. subst T.
    now rewrite uintptr_t_scalar in Hagg.
  - rewrite E, unsigned_value_zero_extended. unfold unsigned_value.
    rewrite <- Hlen. split.
    + apply le_combine_bound.
    + apply split_le_combine.
Qed.

Lemma to_reg_return_decodes_witness :
  0 <= unsigned_value (to_reg_return X64 Fake.rgb Fake.rgb_value) < 2 ^ 24
  /\ le_split 3 (unsigned_value (to_reg_return X64 Fake.rgb Fake.rgb_value))
     = Fake.rgb_value.
Proof.
  assert (Hsize : (sizeof X64 Fake.rgb <= sizeof_pointer X64)%nat)
    by (simpl; lia).
  exact (to_reg_return_decodes X64 Fake.rgb Fake.rgb_value
           eq_refl Hsize eq_refl).
Defined.

(** ** More on the unwrap protocol *)

Lemma World_eta (w : World) : {| mem := mem w; trace := trace w |} = w.
Proof. now destruct w. Qed.

(** X12.  [UnwrapInterface] itself writes to no cell but [*ppvObject]:
    every other cell holds what it held when the negotiation call ended,
    or at the start when no such call is made. *)
Theorem UnwrapInterface_frame (pUnknown : option IUnknown)
    (ppvObject : addr) (w : World) (p : addr) :
  p <> ppvObject ->
  mem (final_world (xcom.UnwrapInterface pUnknown ppvObject w)) !! p
  = mem (after_negotiation pUnknown ppvObject w) !! p.
Proof.
  intros Hp. unfold after_negotiation.
  destruct (Z.eq_dec ppvObject nullptr) as [-> | Hout].
  - replace (xcom.UnwrapInterface pUnknown nullptr w)
      with (Returned E_POINTER
              {| mem := mem w;
                 trace := trace w ++ [EvReportFailure E_POINTER] |})
      by reflexivity.
    now destruct pUnknown.
  - destruct pUnknown as [obj |].
    + rewrite UnwrapInterface_present, eqb_nullptr_false by assumption.
      destruct (call_QueryInterface obj GUID_UnwrapInterface ppvObject w)
        as [hr w1 | c w1]; [| reflexivity].
      destruct (SUCCEEDED hr); [reflexivity |].
      cbn [final_world mem]. now rewrite lookup_insert_ne.
    + rewrite UnwrapInterface_absent by assumption.
      cbn [final_world mem]. now rewrite lookup_insert_ne.
Qed.

Lemma UnwrapInterface_frame_witness :
  mem (final_world (xcom.UnwrapInterface (Some Fake.stranger) 64
                      {| mem := {[ 64 := 7; 72 := 9 ]}; trace := [] |}))
  !! 72 = Some 9.
Proof.
  assert (Hp : 72 <> 64) by discriminate.
  rewrite (UnwrapInterface_frame (Some Fake.stranger) 64
             {| mem := {[ 64 := 7; 72 := 9 ]}; trace := [] |} 72 Hp).
  reflexivity.
Defined.

(** X13.  Over an object whose negotiation call already leaves the output
    cell null when it fails, [UnwrapInterface] with a writable output is
    that negotiation call and nothing else: same status, same world. *)
Theorem UnwrapInterface_transparent (obj : IUnknown) (ppvObject : addr)
    (w : World) (hr : HRESULT) (w1 : World) :
  ppvObject <> nullptr ->
  call_QueryInterface obj GUID_UnwrapInterface ppvObject w = Returned hr w1 ->
  (FAILED hr = true -> mem w1 !! ppvObject = Some nullptr) ->
  xcom.UnwrapInterface (Some obj) ppvObject w = Returned hr w1.
Proof.
  intros Hout Hcall Hnull.
  rewrite UnwrapInterface_present, Hcall by assumption.
  destruct (SUCCEEDED hr) eqn:Hok; [reflexivity |].
  rewrite insert_id.
  - now rewrite World_eta.
  - apply Hnull. now rewrite FAILED_not_SUCCEEDED, Hok.
Qed.

Lemma UnwrapInterface_transparent_witness :
  xcom.UnwrapInterface (Some Sample.polite) 64 Fake.start
  = Returned E_NOINTERFACE
      {| mem := {[ 64 := nullptr ]};
         trace := [EvQueryInterface 16384 GUID_UnwrapInterface 64] |}.
Proof.
  assert (Hout : 64 <> nullptr) by discriminate.
  exact (UnwrapInterface_transparent Sample.polite 64 Fake.start
           E_NOINTERFACE
           {| mem := {[ 64 := nullptr ]};
              trace := [EvQueryInterface 16384 GUID_UnwrapInterface 64] |}
           Hout eq_refl (fun _ => eq_refl)).
Defined.

(** X14.  [UnwrapInterface] returns whenever the negotiation call does,
    and always when no such call is made; it ends the process only when
    the negotiation call it made did, with that exit code and world. *)
Theorem UnwrapInterface_exit_only_by_negotiation
    (pUnknown : option IUnknown) (ppvObject : addr) (w : World)
    (c : Z) (w' : World) :
  xcom.UnwrapInterface pUnknown ppvObject w = Exited c w' ->
  exists obj,
    pUnknown = Some obj
    /\ ppvObject <> nullptr
    /\ call_QueryInterface obj GUID_UnwrapInterface ppvObject w = Exited c w'.
Proof.
  intros Hrun. destruct (Z.eq_dec ppvObject nullptr) as [-> | Hout].
  - discriminate Hrun.
  - destruct pUnknown as [obj |].
    + exists obj. split; [reflexivity |]. split; [exact Hout |].
      rewrite UnwrapInterface_present in Hrun by assumption.
      destruct (call_QueryInterface obj GUID_UnwrapInterface ppvObject w)
        as [hr w1 | c1 w1]; [| exact Hrun].
      destruct (SUCCEEDED hr); discriminate Hrun.
    + rewrite UnwrapInterface_absent in Hrun by assumption.
      discriminate Hrun.
Qed.

Lemma UnwrapInterface_exit_only_by_negotiation_witness :
  exists obj,
    Some Sample.fatal = Some obj
    /\ 64 <> nullptr
    /\ call_QueryInterface obj GUID_UnwrapInterface 64 Fake.start
       = Exited 3
           {| mem := mem Fake.start;
              trace := [EvQueryInterface 12288 GUID_UnwrapInterface 64] |}.
Proof.
  exact (UnwrapInterface_exit_only_by_negotiation (Some Sample.fatal) 64
           Fake.start 3 _ eq_refl).
Defined.

(** X15.  [UnwrapInterface] adds one entry of its own to the trace, the
    failure report, and only when the output location is null: a failure
    of the negotiation call is returned without being reported. *)
Theorem UnwrapInterface_reports_only_null_output
    (pUnknown : option IUnknown) (ppvObject : addr) (w : World) :
  trace (final_world (xcom.UnwrapInterface pUnknown ppvObject w))
  = trace (after_negotiation pUnknown ppvObject w)
    ++ (if ppvObject =? nullptr then [EvReportFailure E_POINTER] else []).
Proof.
  unfold after_negotiation.
  destruct (Z.eq_dec ppvObject nullptr) as [-> | Hout].
  - replace (xcom.UnwrapInterface pUnknown nullptr w)
      with (Returned E_POINTER
              {| mem := mem w;
                 trace := trace w ++ [EvReportFailure E_POINTER] |})
      by reflexivity.
    now destruct pUnknown.
  - rewrite eqb_nullptr_false, app_nil_r by assumption.
    destruct pUnknown as [obj |].
    + rewrite UnwrapInterface_present by assumption.
      destruct (call_QueryInterface obj GUID_UnwrapInterface ppvObject w)
        as [hr w1 | c w1]; [| reflexivity].
      now destruct (SUCCEEDED hr).
    + now rewrite UnwrapInterface_absent.
Qed.

(** ** More on the diagnostics *)

Lemma string_app_nil_r (s : string) : (s ++ "")%string = s.
Proof.
  induction s as [| c s IH]; [reflexivity |].
  change (String c (s ++ "")%string = String c s). now rewrite IH.
Qed.

Lemma string_app_assoc (s t u : string) :
  ((s ++ t) ++ u)%string = (s ++ t ++ u)%string.
Proof.
  induction s as [| c s IH]; [reflexivity |].
  change (String c ((s ++ t) ++ u)%string = String c (s ++ t ++ u)%string).
  now rewrite IH.
Qed.

Lemma concat_empty_cons (x : string) (xs : list string) :
  String.concat "" (x :: xs) = (x ++ String.concat "" xs)%string.
Proof.
  destruct xs as [| y ys]; simpl; [now rewrite string_app_nil_r | reflexivity].
Qed.

Lemma concat_empty_app (xs ys : list string) :
  String.concat "" (xs ++ ys)
  = (String.concat "" xs ++ String.concat "" ys)%string.
Proof.
  induction xs as [| x xs IH]; [reflexivity |].
  rewrite <- app_comm_cons, !concat_empty_cons, IH.
  now rewrite string_app_assoc.
Qed.

Lemma debug_chunks_app (t u : list event) :
  debug_chunks (t ++ u) = debug_chunks t ++ debug_chunks u.
Proof.
  induction t as [| e t IH]; [reflexivity |].
  destruct e; simpl; congruence.
Qed.

Lemma debug_text_app (t u : list event) :
  debug_text (t ++ u) = (debug_text t ++ debug_text u)%string.
Proof. unfold debug_text. now rewrite debug_chunks_app, concat_empty_app. Qed.

Lemma todo_chunks_line (name : string) (type : option string) :
  String.concat "" (todo_chunks name type) = todo_line name type.
Proof. now destruct type. Qed.

Lemma TodoHandler_runs (b : build) (name : string) (object : addr)
    (w : World) :
  xcom.TodoHandler b name object w = Returned tt (after_todo b name object w).
Proof.
  unfold xcom.TodoHandler, after_todo.
  destruct (xcom.todo_type b object); run_proc; reflexivity.
Qed.

(** Nothing written after [StubHandler] runs. *)
Lemma StubHandler_absorbs (A : Type) (b : build) (name : string)
    (object : addr) (k : unit -> proc A) (w : World) :
  (xcom.StubHandler b name object ≫= k) w
  = Exited 0 (final_world (xcom.StubHandler b name object w)).
Proof.
  rewrite (bind_exited _ k w 0 _ (StubHandler_exits b name object w)).
  now rewrite StubHandler_exits.
Qed.

(** Whatever follows [TodoHandler] runs, on the memory as it was. *)
Lemma TodoHandler_continues (A : Type) (b : build) (name : string)
    (object : addr) (k : unit -> proc A) (w : World) :
  (xcom.TodoHandler b name object ≫= k) w = k tt (after_todo b name object w)
  /\ mem (after_todo b name object w) = mem w.
Proof.
  split; [| reflexivity].
  apply bind_returned, TodoHandler_runs.
Qed.

(** X16.  Each call of [TodoHandler] adds its line to the end of what
    the debug output already holds, and adds nothing else. *)
Theorem TodoHandler_appends (b : build) (name : string) (object : addr)
    (w : World) :
  debug_text (trace (final_world (xcom.TodoHandler b name object w)))
  = (debug_text (trace w)
     ++ todo_line name (xcom.todo_type b object))%string.
Proof.
  rewrite TodoHandler_runs. unfold after_todo. cbn [final_world trace].
  rewrite debug_text_app. unfold debug_text at 2.
  now rewrite debug_chunks_outputs, todo_chunks_line.
Qed.

(** X17.  In a build without run-time type information neither handler
    looks at the object: both do what they do for a null object. *)
Theorem handlers_ignore_object_without_rtti (b : build) (name : string)
    (object : addr) (w : World) :
  _CPPRTTI b = false ->
  xcom.TodoHandler b name object w = xcom.TodoHandler b name nullptr w
  /\ xcom.StubHandler b name object w = xcom.StubHandler b name nullptr w
  /\ xcom.todo_type b object = None
  /\ xcom.stub_type b object = "STUB"%string.
Proof.
  intros Hb.
  assert (Ht : forall o, xcom.todo_type b o = None)
    by (intros o; unfold xcom.todo_type; now rewrite Hb).
  assert (Hs : forall o, xcom.stub_type b o = "STUB"%string)
    by (intros o; unfold xcom.stub_type; now rewrite Hb).
  split; [| split; [| split]].
  - rewrite !TodoHandler_runs. unfold after_todo. now rewrite !Ht.
  - rewrite !StubHandler_exits. now rewrite !Hs.
  - apply Ht.
  - apply Hs.
Qed.

Lemma handlers_ignore_object_without_rtti_witness :
  xcom.TodoHandler Fake.no_rtti "Foo" 4096 Fake.start
  = xcom.TodoHandler Fake.no_rtti "Foo" nullptr Fake.start
  /\ xcom.StubHandler Fake.no_rtti "Foo" 4096 Fake.start
     = xcom.StubHandler Fake.no_rtti "Foo" nullptr Fake.start
  /\ xcom.todo_type Fake.no_rtti 4096 = None
  /\ xcom.stub_type Fake.no_rtti 4096 = "STUB"%string.
Proof.
  exact (handlers_ignore_object_without_rtti Fake.no_rtti "Foo" 4096
           Fake.start eq_refl).
Defined.

